(** * ModalComponent: the dialog widget of src/components/modal/modal-component.ts

    A shallow embedding of the [ModalComponent] class: its three reactive
    fields, the three private click handlers, [render], and the way a click
    on a rendered region is routed back into a handler.  Handlers run in a
    small state-and-log monad: the state is the component instance, the log
    is the sequence of events handed to [dispatchEvent], each one stamped
    with the instance as a synchronous listener sees it. *)

From Stdlib Require Import Bool List String Arith Lia.
Import ListNotations.
Open Scope string_scope.
Open Scope list_scope.

(** ** The component instance *)

Module Modal.

(** The three [@property] fields, with the types the class declares. *)
Record ModalComponent : Type := mkModal {
  open : bool;
  message : string;
  type : string
}.

(** Field initialisers of the class body: [open = false], [message = ""],
    [type = ""]. *)
Definition initial : ModalComponent :=
  {| open := false; message := ""; type := "" |}.

(** [new CustomEvent(name, { detail })]. *)
Record CustomEvent : Type := mkEvent {
  ev_name : string;
  detail : bool
}.

(** One call of [dispatchEvent]: listeners run synchronously inside the call,
    so the host receives the event together with the instance as it is at
    that very moment. *)
Record delivery : Type := mkDelivery {
  event : CustomEvent;
  seen : ModalComponent
}.

(** ** Methods as state-and-log computations *)

Definition M (A : Type) : Type := ModalComponent -> A * ModalComponent * list delivery.

Definition ret {A} (a : A) : M A := fun this => (a, this, []).

Definition bind {A B} (m : M A) (k : A -> M B) : M B :=
  fun this =>
    let '(a, this1, l1) := m this in
    let '(b, this2, l2) := k a this1 in
    (b, this2, l1 ++ l2).

Notation "m1 ;; m2" := (bind m1 (fun _ => m2))
  (at level 61, right associativity).

(** [this.open = b] *)
Definition set_open (b : bool) : M unit :=
  fun this => (tt, {| open := b; message := message this; type := type this |}, []).

(** [this.message = m] *)
Definition set_message (m : string) : M unit :=
  fun this => (tt, {| open := open this; message := m; type := type this |}, []).

(** [this.type = ty] *)
Definition set_type (ty : string) : M unit :=
  fun this => (tt, {| open := open this; message := message this; type := ty |}, []).

(** [this.dispatchEvent(e)] *)
Definition dispatchEvent (e : CustomEvent) : M unit :=
  fun this => (tt, this, [ {| event := e; seen := this |} ]).

(** [private close()], lines 69-72. *)
Definition close : M unit :=
  set_open false ;;
  dispatchEvent {| ev_name := "confirm"; detail := false |}.

(** [private handleConfirm()], lines 78-81. *)
Definition handleConfirm : M unit :=
  dispatchEvent {| ev_name := "confirm"; detail := true |} ;;
  close.

(** [private handleCancel()], lines 87-90. *)
Definition handleCancel : M unit :=
  dispatchEvent {| ev_name := "confirm"; detail := false |} ;;
  close.

(** The three methods that [render] installs as [@click] listeners. *)
Inductive handler : Type := Close | HandleConfirm | HandleCancel.

Definition run_handler (h : handler) : M unit :=
  match h with
  | Close => close
  | HandleConfirm => handleConfirm
  | HandleCancel => handleCancel
  end.

Definition state_after {A} (m : M A) (this : ModalComponent) : ModalComponent :=
  snd (fst (m this)).

Definition log_of {A} (m : M A) (this : ModalComponent) : list delivery :=
  snd (m this).

(** The boolean payloads of the "confirm" events in a log, in order. *)
Definition is_confirm (d : delivery) : bool := String.eqb (ev_name (event d)) "confirm".

Definition notifications (l : list delivery) : list bool :=
  map (fun d => detail (event d)) (filter is_confirm l).

(** ** render *)

(** The template [render] returns: the overlay [div] with its listener, the
    paragraph, and the buttons of the [modal-buttons] container. *)
Record Button : Type := mkButton {
  b_class : string;
  b_part : string;
  b_click : handler;
  b_label : string
}.

Record Template : Type := mkTemplate {
  overlay_part : string;
  overlay_click : handler;
  paragraph : string;
  buttons : list Button
}.

(** Calls of the label lookup are logged next to the value computed. *)
Definition L (A : Type) : Type := A * list string.

Definition lret {A} (a : A) : L A := (a, []).

Definition lbind {A B} (m : L A) (k : A -> L B) : L B :=
  let '(a, l1) := m in
  let '(b, l2) := k a in
  (b, l1 ++ l2).

Section Render.

(** [this.i18nextService.t], the label lookup supplied by the localization
    service. *)
Variable t : string -> string.

Definition call_t (key : string) : L string := (t key, [key]).

(** [render()], lines 92-131. *)
Definition render (this : ModalComponent) : L (option Template) :=
  if negb (open this) then lret None
  else
    lbind
      (if String.eqb (type this) "confirm" then
         lbind (call_t "modal.buttons.ok") (fun ok =>
         lbind (call_t "modal.buttons.cancel") (fun cancel =>
         lret [ {| b_class := "modal-confirm-button"; b_part := "modal-confirm-button";
                   b_click := HandleConfirm; b_label := ok |};
                {| b_class := "modal-cancel-button"; b_part := "modal-cancel-button";
                   b_click := HandleCancel; b_label := cancel |} ]))
       else
         lbind (call_t "modal.buttons.ok") (fun ok =>
         lret [ {| b_class := "modal-confirm-button"; b_part := "modal-confirm-button";
                   b_click := Close; b_label := ok |} ]))
      (fun bs =>
         lret (Some {| overlay_part := "modal-overlay";
                       overlay_click := Close;
                       paragraph := message this;
                       buttons := bs |})).

Definition view (this : ModalComponent) : option Template := fst (render this).

Definition lookup_keys (this : ModalComponent) : list string := snd (render this).

(** ** Clicks *)

(** The named regions of the render surface that route clicks back. *)
Inductive region : Type := Overlay | OkControl | CancelControl.

Definition part_of (r : region) : string :=
  match r with
  | Overlay => "modal-overlay"
  | OkControl => "modal-confirm-button"
  | CancelControl => "modal-cancel-button"
  end.

(** The listener bound to a region in a rendered template, if the region is
    there at all. *)
Definition listener (v : Template) (r : region) : option handler :=
  match r with
  | Overlay => Some (overlay_click v)
  | _ => option_map b_click
           (find (fun b => String.eqb (b_part b) (part_of r)) (buttons v))
  end.

Definition target (this : ModalComponent) (r : region) : option handler :=
  match view this with
  | None => None
  | Some v => listener v r
  end.

(** A click on region [r]: the listener of the current template runs, and a
    click on something that is not rendered reaches no listener.  The
    template is the one [render] gives for the instance as it is now: the
    re-render a field write schedules is flushed before the next user input
    is handled. *)
Definition click (r : region) : M unit :=
  fun this =>
    match target this r with
    | Some h => run_handler h this
    | None => ret tt this
    end.

(** What can happen to the instance: the host writes a field, or the user
    clicks a region. *)
Inductive input : Type :=
| HostSetOpen (b : bool)
| HostSetMessage (m : string)
| HostSetType (ty : string)
| Click (r : region).

Definition step (i : input) : M unit :=
  match i with
  | HostSetOpen b => set_open b
  | HostSetMessage m => set_message m
  | HostSetType ty => set_type ty
  | Click r => click r
  end.

Fixpoint run (ins : list input) : M unit :=
  match ins with
  | [] => ret tt
  | i :: rest => step i ;; run rest
  end.

(** A click that reaches a listener. *)
Definition qualifying (this : ModalComponent) (r : region) : bool :=
  match target this r with Some _ => true | None => false end.

End Render.

End Modal.

Import Modal.

(** A label lookup to run the model with: it answers every key with the key
    itself. *)
Definition echo_t : string -> string := fun key => key.

(** Scenario A of the specification, just opened by the host. *)
Definition scenario_A : ModalComponent :=
  {| open := true; message := "Delete item?"; type := "confirm" |}.

(** Scenario B of the specification, just opened by the host. *)
Definition scenario_B : ModalComponent :=
  {| open := true; message := "Saved."; type := "alert" |}.

(** Scenario D of the specification: the type left empty. *)
Definition scenario_D : ModalComponent :=
  {| open := true; message := ""; type := "" |}.

(** An input other than the host writing [open = true]. *)
Definition reopens (i : input) : bool :=
  match i with
  | HostSetOpen true => true
  | _ => false
  end.

(** How many times the host writes [open = true] in a sequence of inputs. *)
Definition reopen_count (ins : list input) : nat :=
  List.length (filter reopens ins).

(** What a listener learns from each delivery of a log: the payload, and the
    visibility flag it finds on the instance at that moment. *)
Definition trace (l : list delivery) : list (bool * bool) :=
  map (fun d => (detail (event d), open (seen d))) l.

(** ** Which listener a click reaches *)

Section Routing.

Variable t : string -> string.

Lemma target_closed (this : ModalComponent) (r : region) :
  open this = false -> target t this r = None.
Proof.
  intros Hc. unfold target, view, render. rewrite Hc. reflexivity.
Qed.

Lemma target_confirm (this : ModalComponent) (r : region) :
  open this = true -> type this = "confirm" ->
  target t this r =
  Some (match r with
        | Overlay => Close
        | OkControl => HandleConfirm
        | CancelControl => HandleCancel
        end).
Proof.
  intros Ho Ht. unfold target, view, render. rewrite Ho, Ht.
  destruct r; reflexivity.
Qed.

Lemma target_alert (this : ModalComponent) (r : region) :
  open this = true -> type this <> "confirm" ->
  target t this r =
  match r with
  | Overlay | OkControl => Some Close
  | CancelControl => None
  end.
Proof.
  intros Ho Ht. unfold target, view, render. rewrite Ho.
  destruct (String.eqb_spec (type this) "confirm") as [E | _]; [contradiction |].
  destruct r; reflexivity.
Qed.

Lemma qualifying_open (this : ModalComponent) (r : region) :
  qualifying t this r = true -> open this = true.
Proof.
  unfold qualifying. destruct (open this) eqn:Ho; [reflexivity |].
  rewrite target_closed by assumption. discriminate.
Qed.

(** Every handler leaves the instance closed and touches no other field. *)
Lemma handler_state (h : handler) (this : ModalComponent) :
  state_after (run_handler h) this =
  {| open := false; message := message this; type := type this |}.
Proof. destruct h; reflexivity. Qed.

Lemma handler_notifications (h : handler) (this : ModalComponent) :
  notifications (log_of (run_handler h) this) =
  match h with
  | Close => [false]
  | HandleConfirm => [true; false]
  | HandleCancel => [false; false]
  end.
Proof. destruct h; reflexivity. Qed.

Lemma click_unfold (r : region) (this : ModalComponent) :
  click t r this =
  match target t this r with
  | Some h => run_handler h this
  | None => (tt, this, [])
  end.
Proof. reflexivity. Qed.

Lemma click_closed (r : region) (this : ModalComponent) :
  open this = false -> click t r this = (tt, this, []).
Proof.
  intros Hc. rewrite click_unfold, target_closed by assumption. reflexivity.
Qed.

Lemma click_state_fields (r : region) (this : ModalComponent) :
  message (state_after (click t r) this) = message this /\
  type (state_after (click t r) this) = type this.
Proof.
  unfold state_after. rewrite click_unfold.
  destruct (target t this r) as [h |].
  - change (snd (fst (run_handler h this))) with (state_after (run_handler h) this).
    rewrite handler_state. split; reflexivity.
  - split; reflexivity.
Qed.

Lemma click_qualifying_state (r : region) (this : ModalComponent) :
  qualifying t this r = true ->
  state_after (click t r) this =
  {| open := false; message := message this; type := type this |}.
Proof.
  unfold qualifying, state_after. rewrite click_unfold.
  destruct (target t this r) as [h |]; [intros _ | discriminate].
  apply (handler_state h this).
Qed.

(** Nothing happens to a closed instance as long as the host does not write
    [open = true]: no event is dispatched and it stays closed. *)
Lemma run_closed_silent (ins : list input) :
  forall this,
    open this = false ->
    forallb (fun i => negb (reopens i)) ins = true ->
    log_of (run t ins) this = [] /\ open (state_after (run t ins) this) = false.
Proof.
  induction ins as [| i rest IH]; intros this Hc Hall.
  - split; [reflexivity | exact Hc].
  - simpl in Hall. apply andb_true_iff in Hall as [Hi Hrest].
    assert (Hstep : exists this1,
               step t i this = (tt, this1, []) /\ open this1 = false).
    { destruct i as [b | m | ty | r]; simpl.
      - destruct b; [discriminate Hi |].
        eexists; split; reflexivity.
      - eexists; split; [reflexivity | exact Hc].
      - eexists; split; [reflexivity | exact Hc].
      - exists this. split; [apply click_closed; exact Hc | exact Hc]. }
    destruct Hstep as [this1 [Es Hc1]].
    destruct (IH this1 Hc1 Hrest) as [Hlog Hfin].
    unfold log_of, state_after in *. simpl. unfold bind. rewrite Es.
    destruct (run t rest this1) as [[u this2] l2]. simpl in *.
    subst l2. split; [reflexivity | exact Hfin].
Qed.

End Routing.

(** ** Notifications per click *)

(** How many "confirm" events one click that reaches a listener dispatches:
    two from the buttons of the confirm layout, whose handlers dispatch and
    then call [close], one otherwise. *)
Lemma click_notification_count (t : string -> string) (this : ModalComponent) (r : region) :
  qualifying t this r = true ->
  List.length (notifications (log_of (click t r) this)) =
  match r with
  | Overlay => 1
  | _ => if String.eqb (type this) "confirm" then 2 else 1
  end.
Proof.
  intros Hq. pose proof (qualifying_open t this r Hq) as Ho.
  unfold qualifying in Hq. unfold log_of. rewrite click_unfold.
  destruct (String.eqb_spec (type this) "confirm") as [E | N].
  - rewrite (target_confirm t this r Ho E). destruct r; reflexivity.
  - rewrite (target_alert t this r Ho N) in *. destruct r; try reflexivity.
    discriminate Hq.
Qed.

(** C1 (evaluated on the code).  In scenario A, a dialog opened with type
    "confirm", one click on the ok-control dispatches two "confirm" events,
    [true] and then [false], and one click on the cancel-control dispatches
    two, [false] and [false]; only the overlay click dispatches exactly
    one. *)
Theorem confirm_buttons_dispatch_twice (t : string -> string) :
  notifications (log_of (click t OkControl) scenario_A) = [true; false] /\
  notifications (log_of (click t CancelControl) scenario_A) = [false; false] /\
  notifications (log_of (click t Overlay) scenario_A) = [false].
Proof. repeat split; reflexivity. Qed.

(** C2 (evaluated on the code).  For every dialog open with type "confirm":
    the ok-control click dispatches [true] followed by [false], the
    cancel-control click dispatches [false] twice, and the overlay click
    dispatches [false] once.  The cancel and overlay decisions are as
    claimed; the ok-control decision [true] is followed by a contradicting
    [false]. *)
Theorem confirm_mode_decisions (t : string -> string) (this : ModalComponent) :
  open this = true ->
  type this = "confirm" ->
  notifications (log_of (click t OkControl) this) = [true; false] /\
  notifications (log_of (click t CancelControl) this) = [false; false] /\
  notifications (log_of (click t Overlay) this) = [false].
Proof.
  intros Ho Ht. unfold log_of. rewrite !click_unfold.
  rewrite !(target_confirm t this _ Ho Ht).
  repeat split; reflexivity.
Qed.

Lemma confirm_mode_decisions_witness :
  open scenario_A = true /\
  type scenario_A = "confirm" /\
  notifications (log_of (click echo_t OkControl) scenario_A) = [true; false] /\
  notifications (log_of (click echo_t CancelControl) scenario_A) = [false; false] /\
  notifications (log_of (click echo_t Overlay) scenario_A) = [false].
Proof.
  split; [reflexivity |]. split; [reflexivity |].
  apply (confirm_mode_decisions echo_t scenario_A); reflexivity.
Defined.

(** ** Ordering of the notification and the visibility write *)

(** In [close] the field is written first, so the listener of its event
    already sees [open = false]; in [handleConfirm] and [handleCancel] the
    first event is dispatched while [open] is still as it was. *)
Lemma first_delivery_sees (h : handler) (this : ModalComponent) :
  option_map (fun d => open (seen d)) (hd_error (log_of (run_handler h) this)) =
  Some (match h with Close => false | _ => open this end).
Proof. destruct h; reflexivity. Qed.

(** C3.  A closing click is one synchronous step in which the host is
    notified and the dialog hidden: when the click has been handled, [open]
    is false and at least one "confirm" notification has been delivered;
    and no host code runs in between with [open = false] and nothing
    received.  The only host code that runs while the click is handled are
    the listeners, one call per delivery: whenever the listener called for
    a delivery [d] finds [open = false], there is a "confirm" notification
    among the deliveries made up to and including [d].  (In [close] the
    field is written just before its event is dispatched, so that event's
    listener is the first to find [open = false], and it is being handed
    the notification at that moment.) *)
Theorem notified_no_later_than_hidden (t : string -> string) (this : ModalComponent) (r : region) :
  open this = true ->
  qualifying t this r = true ->
  open (state_after (click t r) this) = false /\
  notifications (log_of (click t r) this) <> [] /\
  (forall pre d post,
      log_of (click t r) this = pre ++ d :: post ->
      open (seen d) = false ->
      notifications (pre ++ [d]) <> []).
Proof.
  intros Ho Hq. unfold qualifying in Hq.
  unfold log_of, state_after. rewrite click_unfold.
  destruct (target t this r) as [h |]; [| discriminate Hq].
  split; [| split].
  - apply (f_equal open (handler_state h this)).
  - change (snd (run_handler h this)) with (log_of (run_handler h) this).
    rewrite handler_notifications. destruct h; discriminate.
  - intros pre d post Hsplit Hclosed.
    destruct h; simpl in Hsplit;
      destruct pre as [| d1 [| d2 [| d3 pre]]];
      simpl in Hsplit; inversion Hsplit; subst;
      try discriminate;
      try (simpl in Hclosed; congruence);
      match goal with
      | H : [] = _ ++ _ :: _ |- _ => destruct pre; discriminate H
      | _ => idtac
      end.
Qed.

Lemma notified_no_later_than_hidden_witness :
  open scenario_B = true /\
  qualifying echo_t scenario_B Overlay = true /\
  open (state_after (click echo_t Overlay) scenario_B) = false /\
  notifications (log_of (click echo_t Overlay) scenario_B) <> [] /\
  (forall pre d post,
      log_of (click echo_t Overlay) scenario_B = pre ++ d :: post ->
      open (seen d) = false ->
      notifications (pre ++ [d]) <> []).
Proof.
  split; [reflexivity |]. split; [reflexivity |].
  apply (notified_no_later_than_hidden echo_t scenario_B Overlay); reflexivity.
Defined.

(** ** After closing *)

(** C4.  After a closing click the field [open] is false, and from there on
    no input dispatches anything, and the dialog stays closed, as long as
    the host does not write [open = true]; in particular a second click on
    any region dispatches nothing, since [render] returns nothing to click
    on. *)
Theorem closed_until_reopened (t : string -> string) (this : ModalComponent) (r : region) :
  qualifying t this r = true ->
  open (state_after (click t r) this) = false /\
  (forall r', log_of (click t r') (state_after (click t r) this) = []) /\
  (forall ins,
      forallb (fun i => negb (reopens i)) ins = true ->
      log_of (run t ins) (state_after (click t r) this) = [] /\
      open (state_after (run t ins) (state_after (click t r) this)) = false).
Proof.
  intros Hq. rewrite (click_qualifying_state t r this Hq).
  split; [reflexivity |]. split.
  - intros r'. unfold log_of. rewrite click_closed; reflexivity.
  - intros ins Hins. apply run_closed_silent; [reflexivity | exact Hins].
Qed.

Lemma closed_until_reopened_witness :
  qualifying echo_t scenario_A CancelControl = true /\
  open (state_after (click echo_t CancelControl) scenario_A) = false /\
  (forall r', log_of (click echo_t r')
                (state_after (click echo_t CancelControl) scenario_A) = []) /\
  (forall ins,
      forallb (fun i => negb (reopens i)) ins = true ->
      log_of (run echo_t ins)
        (state_after (click echo_t CancelControl) scenario_A) = [] /\
      open (state_after (run echo_t ins)
              (state_after (click echo_t CancelControl) scenario_A)) = false).
Proof.
  split; [reflexivity |].
  apply (closed_until_reopened echo_t scenario_A CancelControl); reflexivity.
Defined.

(** ** Alert mode *)



(** C6.  For every type other than "confirm", the empty string included, an
    open dialog renders the alert layout: the overlay, the message, and one
    single button, the acknowledgement control bound to [close] and
    labelled with the "ok" label; there is no cancel control to click. *)
Theorem unknown_type_renders_alert (t : string -> string) (this : ModalComponent) :
  open this = true ->
  type this <> "confirm" ->
  view t this =
  Some {| overlay_part := "modal-overlay";
          overlay_click := Close;
          paragraph := message this;
          buttons := [ {| b_class := "modal-confirm-button";
                          b_part := "modal-confirm-button";
                          b_click := Close;
                          b_label := t "modal.buttons.ok" |} ] |} /\
  target t this CancelControl = None.
Proof.
  intros Ho Ht. split.
  - unfold view, render. rewrite Ho.
    destruct (String.eqb_spec (type this) "confirm") as [E | _]; [contradiction |].
    reflexivity.
  - apply (target_alert t this CancelControl Ho Ht).
Qed.

Lemma unknown_type_renders_alert_witness :
  open scenario_D = true /\
  type scenario_D <> "confirm" /\
  view echo_t scenario_D =
  Some {| overlay_part := "modal-overlay";
          overlay_click := Close;
          paragraph := message scenario_D;
          buttons := [ {| b_class := "modal-confirm-button";
                          b_part := "modal-confirm-button";
                          b_click := Close;
                          b_label := echo_t "modal.buttons.ok" |} ] |} /\
  target echo_t scenario_D CancelControl = None.
Proof.
  split; [reflexivity |]. split; [discriminate |].
  apply (unknown_type_renders_alert echo_t scenario_D); [reflexivity | discriminate].
Defined.

(** ** Host writes *)

(** C7.  Writing [open = true] into a dialog that is already open changes
    nothing: the instance is the same, nothing is dispatched, the rendered
    template is the same, and whatever inputs follow behave exactly as they
    would have without the write. *)
Theorem reopen_while_open_idempotent (t : string -> string) (this : ModalComponent) :
  open this = true ->
  step t (HostSetOpen true) this = (tt, this, []) /\
  view t (state_after (step t (HostSetOpen true)) this) = view t this /\
  (forall ins, run t (HostSetOpen true :: ins) this = run t ins this).
Proof.
  intros Ho.
  assert (E : step t (HostSetOpen true) this = (tt, this, [])).
  { destruct this as [o m ty]. simpl in Ho. subst o. reflexivity. }
  split; [exact E |]. split.
  - unfold state_after. rewrite E. reflexivity.
  - intros ins.
    change (run t (HostSetOpen true :: ins) this)
      with (bind (step t (HostSetOpen true)) (fun _ => run t ins) this).
    unfold bind. rewrite E.
    destruct (run t ins this) as [[u s'] l]. reflexivity.
Qed.

Lemma reopen_while_open_idempotent_witness :
  open scenario_A = true /\
  step echo_t (HostSetOpen true) scenario_A = (tt, scenario_A, []) /\
  view echo_t (state_after (step echo_t (HostSetOpen true)) scenario_A)
    = view echo_t scenario_A /\
  (forall ins, run echo_t (HostSetOpen true :: ins) scenario_A = run echo_t ins scenario_A).
Proof.
  split; [reflexivity |].
  apply (reopen_while_open_idempotent echo_t scenario_A); reflexivity.
Defined.

(** ** The message *)



(** ** Label lookup *)

(** C9.  Whatever the state, [render] asks the label lookup for no key
    other than "modal.buttons.ok" and "modal.buttons.cancel"; the two keys
    are distinct, and both are asked for (by the confirm layout), so over
    all modes the keys looked up are exactly these two. *)
Theorem lookup_exactly_two_keys (t : string -> string) :
  (forall this, incl (lookup_keys t this) ["modal.buttons.ok"; "modal.buttons.cancel"]) /\
  incl ["modal.buttons.ok"; "modal.buttons.cancel"] (lookup_keys t scenario_A) /\
  "modal.buttons.ok" <> "modal.buttons.cancel".
Proof.
  split; [| split].
  - intros this. unfold lookup_keys, render.
    destruct (open this); simpl; [| intros k []].
    destruct (String.eqb (type this) "confirm"); simpl; intros k Hk; simpl in *; tauto.
  - simpl. intros k Hk. exact Hk.
  - discriminate.
Qed.

(** ** Frame *)

(** C10.  Each of [close], [handleConfirm] and [handleCancel] leaves
    [message] and [type] as they were and sets [open] to false, so the only
    field a closing transition can change is [open]; the same holds for a
    click routed through [render]. *)
Theorem closing_handlers_frame (t : string -> string) (this : ModalComponent) :
  (forall h,
      message (state_after (run_handler h) this) = message this /\
      type (state_after (run_handler h) this) = type this /\
      open (state_after (run_handler h) this) = false) /\
  (forall r,
      message (state_after (click t r) this) = message this /\
      type (state_after (click t r) this) = type this).
Proof.
  split.
  - intros h. rewrite handler_state. repeat split.
  - intros r. apply click_state_fields.
Qed.

(** * Further properties of the component *)

(** ** Runs, one input at a time *)

Section Runs.

Variable t : string -> string.

Lemma run_cons_log (i : input) (rest : list input) (this : ModalComponent) :
  log_of (run t (i :: rest)) this =
  log_of (step t i) this ++ log_of (run t rest) (state_after (step t i) this).
Proof.
  unfold log_of, state_after.
  change (run t (i :: rest) this) with (bind (step t i) (fun _ => run t rest) this).
  unfold bind. destruct (step t i this) as [[u s1] l1]. simpl.
  destruct (run t rest s1) as [[u' s2] l2]. reflexivity.
Qed.

Lemma run_cons_state (i : input) (rest : list input) (this : ModalComponent) :
  state_after (run t (i :: rest)) this =
  state_after (run t rest) (state_after (step t i) this).
Proof.
  unfold state_after.
  change (run t (i :: rest) this) with (bind (step t i) (fun _ => run t rest) this).
  unfold bind. destruct (step t i this) as [[u s1] l1]. simpl.
  destruct (run t rest s1) as [[u' s2] l2]. reflexivity.
Qed.

(** The listener a click reaches, read off the two tests of [render]. *)
Lemma target_spec (this : ModalComponent) (r : region) :
  target t this r =
  if open this then
    if String.eqb (type this) "confirm" then
      Some (match r with
            | Overlay => Close
            | OkControl => HandleConfirm
            | CancelControl => HandleCancel
            end)
    else match r with
         | Overlay | OkControl => Some Close
         | CancelControl => None
         end
  else None.
Proof.
  destruct (open this) eqn:Ho.
  - destruct (String.eqb_spec (type this) "confirm") as [E | N].
    + apply target_confirm; assumption.
    + apply target_alert; assumption.
  - apply target_closed; assumption.
Qed.

(** The deliveries of one handler, as a listener sees them. *)
Lemma handler_trace (h : handler) (this : ModalComponent) :
  trace (log_of (run_handler h) this) =
  match h with
  | Close => [(false, false)]
  | HandleConfirm => [(true, open this); (false, false)]
  | HandleCancel => [(false, open this); (false, false)]
  end.
Proof. destruct h; reflexivity. Qed.

(** One input either dispatches nothing, or it is a click on an open dialog
    that runs a handler and leaves the dialog closed. *)
Lemma step_cases (i : input) (this : ModalComponent) :
  (log_of (step t i) this = [] /\
   (open (state_after (step t i) this) = true ->
    open this = true \/ reopens i = true)) \/
  (exists h, open this = true /\
             step t i this = run_handler h this).
Proof.
  destruct i as [b | m | ty | r].
  - left. split; [reflexivity |]. destruct b; simpl; intros H; [right; reflexivity | discriminate H].
  - left. split; [reflexivity |]. simpl. intros H. left. exact H.
  - left. split; [reflexivity |]. simpl. intros H. left. exact H.
  - simpl step. unfold log_of, state_after. rewrite click_unfold.
    destruct (target t this r) as [h |] eqn:Et.
    + right. exists h. split; [| reflexivity].
      destruct (open this) eqn:Ho; [reflexivity |].
      rewrite target_closed in Et by assumption. discriminate Et.
    + left. split; [reflexivity |]. simpl. intros H. left. exact H.
Qed.

End Runs.

(** ** Which clicks close the dialog, and what they dispatch *)

Lemma click_notification_count_witness :
  qualifying echo_t scenario_A CancelControl = true /\
  List.length (notifications (log_of (click echo_t CancelControl) scenario_A)) =
  (if String.eqb (type scenario_A) "confirm" then 2 else 1).
Proof.
  split; [reflexivity |].
  apply (click_notification_count echo_t scenario_A CancelControl); reflexivity.
Defined.

(** A click reaches a listener exactly when the dialog is open and the
    region is rendered: the overlay and the ok-control whenever it is open,
    the cancel-control only with type "confirm". *)
Theorem qualifying_spec (t : string -> string) (this : ModalComponent) (r : region) :
  qualifying t this r =
  open this && match r with
               | CancelControl => String.eqb (type this) "confirm"
               | _ => true
               end.
Proof.
  unfold qualifying. rewrite target_spec.
  destruct (open this), (String.eqb (type this) "confirm"), r; reflexivity.
Qed.

(** The decision [true] is dispatched by a click if and only if the dialog
    is open, its type is "confirm" and the click is on the ok-control. *)
Theorem true_only_from_confirm_ok (t : string -> string) (this : ModalComponent) (r : region) :
  In true (notifications (log_of (click t r) this)) <->
  (open this = true /\ type this = "confirm" /\ r = OkControl).
Proof.
  unfold log_of. rewrite click_unfold, target_spec. split.
  - destruct (open this); [| intros []].
    destruct (String.eqb_spec (type this) "confirm") as [E | N].
    + destruct r; simpl; intros H.
      * destruct H as [H | []]; discriminate H.
      * repeat split; assumption.
      * destruct H as [H | [H | []]]; discriminate H.
    + destruct r; simpl; intros H.
      * destruct H as [H | []]; discriminate H.
      * destruct H as [H | []]; discriminate H.
      * destruct H.
  - intros [Ho [Ht Hr]]. subst r. rewrite Ho, Ht. simpl. left. reflexivity.
Qed.

(** What the listener of each event of a click on an open dialog sees.  An
    event dispatched by [close] finds [open] already false; the first event
    of the confirm-layout buttons finds it still true. *)
Theorem click_trace (t : string -> string) (this : ModalComponent) (r : region) :
  open this = true ->
  trace (log_of (click t r) this) =
  if String.eqb (type this) "confirm" then
    match r with
    | Overlay => [(false, false)]
    | OkControl => [(true, true); (false, false)]
    | CancelControl => [(false, true); (false, false)]
    end
  else
    match r with
    | CancelControl => []
    | _ => [(false, false)]
    end.
Proof.
  intros Ho. unfold log_of. rewrite click_unfold, target_spec, Ho.
  destruct (String.eqb (type this) "confirm"), r;
    try reflexivity;
    match goal with
    | |- trace (snd (run_handler ?h this)) = _ =>
        change (snd (run_handler h this)) with (log_of (run_handler h) this);
        rewrite handler_trace, ?Ho; reflexivity
    end.
Qed.

Lemma click_trace_witness :
  open scenario_A = true /\
  trace (log_of (click echo_t OkControl) scenario_A) =
  (if String.eqb (type scenario_A) "confirm" then [(true, true); (false, false)]
   else [(false, false)]).
Proof.
  split; [reflexivity |].
  apply (click_trace echo_t scenario_A OkControl); reflexivity.
Defined.

(** ** The rendered template *)

(** With type "confirm" an open dialog renders two buttons in this order:
    the ok button bound to [handleConfirm] and the cancel button bound to
    [handleCancel], labelled with what the lookup answers for their keys;
    the overlay is bound to [close]. *)
Theorem confirm_type_renders_two_buttons (t : string -> string) (this : ModalComponent) :
  open this = true ->
  type this = "confirm" ->
  view t this =
  Some {| overlay_part := "modal-overlay";
          overlay_click := Close;
          paragraph := message this;
          buttons := [ {| b_class := "modal-confirm-button";
                          b_part := "modal-confirm-button";
                          b_click := HandleConfirm;
                          b_label := t "modal.buttons.ok" |};
                       {| b_class := "modal-cancel-button";
                          b_part := "modal-cancel-button";
                          b_click := HandleCancel;
                          b_label := t "modal.buttons.cancel" |} ] |}.
Proof.
  intros Ho Ht. unfold view, render. rewrite Ho, Ht. reflexivity.
Qed.

Lemma confirm_type_renders_two_buttons_witness :
  open scenario_A = true /\
  type scenario_A = "confirm" /\
  view echo_t scenario_A =
  Some {| overlay_part := "modal-overlay";
          overlay_click := Close;
          paragraph := message scenario_A;
          buttons := [ {| b_class := "modal-confirm-button";
                          b_part := "modal-confirm-button";
                          b_click := HandleConfirm;
                          b_label := echo_t "modal.buttons.ok" |};
                       {| b_class := "modal-cancel-button";
                          b_part := "modal-cancel-button";
                          b_click := HandleCancel;
                          b_label := echo_t "modal.buttons.cancel" |} ] |}.
Proof.
  split; [reflexivity |]. split; [reflexivity |].
  apply (confirm_type_renders_two_buttons echo_t scenario_A); reflexivity.
Defined.

(** [render] returns nothing exactly when the dialog is closed, and then it
    looks up no label; when it returns a template, the labels of its
    buttons are the answers of the lookup to the keys asked for in that
    render, one lookup per button, in button order. *)
Theorem labels_are_lookup_results (t : string -> string) (this : ModalComponent) :
  (view t this = None <-> open this = false) /\
  match view t this with
  | None => lookup_keys t this = []
  | Some v => map b_label (buttons v) = map t (lookup_keys t this)
  end.
Proof.
  unfold view, lookup_keys, render.
  destruct (open this); simpl.
  - destruct (String.eqb (type this) "confirm"); simpl;
      (split; [split; discriminate | reflexivity]).
  - split; [split; reflexivity | reflexivity].
Qed.

(** The label lookup has no influence on behaviour: with any two lookups,
    every sequence of host writes and clicks leaves the same instance and
    dispatches the same events. *)
Theorem behaviour_independent_of_labels (t1 t2 : string -> string) (ins : list input) :
  forall this, run t1 ins this = run t2 ins this.
Proof.
  induction ins as [| i rest IH]; intros this; [reflexivity |].
  assert (Es : step t1 i this = step t2 i this).
  { destruct i as [b | m | ty | r]; try reflexivity.
    simpl. rewrite !click_unfold, !target_spec. reflexivity. }
  change (bind (step t1 i) (fun _ => run t1 rest) this
          = bind (step t2 i) (fun _ => run t2 rest) this).
  unfold bind. rewrite Es. destruct (step t2 i this) as [[u s1] l1].
  rewrite IH. reflexivity.
Qed.

(** ** Whole runs *)

(** Whatever the host writes and the user clicks, every event the component
    dispatches is named "confirm": the notifications of a run are the
    payloads of all its deliveries. *)
Theorem only_confirm_events (t : string -> string) (ins : list input) :
  forall this,
    Forall (fun d => ev_name (event d) = "confirm") (log_of (run t ins) this) /\
    notifications (log_of (run t ins) this)
      = map (fun d => detail (event d)) (log_of (run t ins) this).
Proof.
  assert (F : forall l, Forall (fun d => ev_name (event d) = "confirm") l ->
                        filter is_confirm l = l).
  { induction l as [| d l IHl]; intros H; [reflexivity |].
    inversion H as [| d' l' Hd Hl]; subst. simpl. unfold is_confirm at 1.
    rewrite Hd. simpl. rewrite IHl by assumption. reflexivity. }
  assert (A : forall this,
             Forall (fun d => ev_name (event d) = "confirm") (log_of (run t ins) this)).
  { induction ins as [| i rest IH]; intros this; [constructor |].
    rewrite run_cons_log. apply Forall_app. split; [| apply IH].
    destruct (step_cases t i this) as [[E _] | [h [_ E]]].
    - rewrite E. constructor.
    - unfold log_of. rewrite E. destruct h; repeat constructor. }
  intros this. split; [apply A |].
  unfold notifications. rewrite F by apply A. reflexivity.
Qed.

(** A run dispatches no more than two events for the opening it starts in
    (if it starts open) and two for each time the host writes
    [open = true]. *)
Lemma deliveries_bounded_by_openings (t : string -> string) (ins : list input) :
  forall this,
    List.length (log_of (run t ins) this)
    <= 2 * ((if open this then 1 else 0) + reopen_count ins).
Proof.
  induction ins as [| i rest IH]; intros this.
  - simpl. lia.
  - rewrite run_cons_log, length_app.
    specialize (IH (state_after (step t i) this)).
    assert (R : reopen_count (i :: rest)
                = (if reopens i then 1 else 0) + reopen_count rest).
    { unfold reopen_count. simpl. destruct (reopens i); reflexivity. }
    rewrite R.
    destruct (step_cases t i this) as [[E Hopen] | [h [Ho E]]].
    + rewrite E. simpl List.length.
      destruct (open (state_after (step t i) this)) eqn:Ho1.
      * destruct (Hopen eq_refl) as [H | H]; rewrite H; destruct (open this), (reopens i); lia.
      * destruct (open this), (reopens i); lia.
    + unfold log_of, state_after in *. rewrite E in *.
      pose proof (handler_state h this) as Hs. unfold state_after in Hs.
      rewrite Hs in IH. simpl in IH. rewrite Hs, Ho.
      assert (List.length (snd (run_handler h this)) <= 2) by (destruct h; simpl; lia).
      destruct (reopens i); lia.
Qed.

(** At most two notifications per opening: the notifications of a run are
    no more than two for the opening it starts in (if it starts open) plus
    two for each time the host writes [open = true]; without an opening
    there is none. *)
Theorem notifications_bounded_by_openings (t : string -> string) (ins : list input)
    (this : ModalComponent) :
  List.length (notifications (log_of (run t ins) this))
  <= 2 * ((if open this then 1 else 0) + reopen_count ins).
Proof.
  unfold notifications. rewrite length_map.
  pose proof (filter_length_le is_confirm (log_of (run t ins) this)).
  pose proof (deliveries_bounded_by_openings t ins this). lia.
Qed.

(** Whenever a run has dispatched anything, the last event it dispatched
    carries [false] and was delivered with [open] already false: the host
    is always left with a declining decision, also after a click on the
    ok-control. *)
Theorem last_notification_is_false (t : string -> string) (ins : list input) :
  forall this d0,
    log_of (run t ins) this <> [] ->
    detail (event (last (log_of (run t ins) this) d0)) = false /\
    open (seen (last (log_of (run t ins) this) d0)) = false.
Proof.
  induction ins as [| i rest IH]; intros this d0 Hne.
  - exfalso. apply Hne. reflexivity.
  - rewrite run_cons_log in *.
    destruct (log_of (run t rest) (state_after (step t i) this)) as [| d l2] eqn:E2.
    + rewrite app_nil_r in *.
      destruct (step_cases t i this) as [[E _] | [h [_ E]]].
      * rewrite E in Hne. exfalso. apply Hne. reflexivity.
      * unfold log_of. rewrite E. destruct h; split; reflexivity.
    + specialize (IH (state_after (step t i) this) d0). rewrite E2 in IH.
      assert (L : forall (l1 : list delivery),
                 last (l1 ++ d :: l2) d0 = last (d :: l2) d0).
      { induction l1 as [| x l1 IHl]; [reflexivity |].
        simpl app. rewrite <- IHl. simpl. destruct (l1 ++ d :: l2) eqn:Ea; [| reflexivity].
        destruct l1; discriminate Ea. }
      rewrite L. apply IH. discriminate.
Qed.

Lemma last_notification_is_false_witness :
  log_of (run echo_t [Click OkControl]) scenario_A <> [] /\
  detail (event (last (log_of (run echo_t [Click OkControl]) scenario_A)
                   {| event := {| ev_name := ""; detail := true |}; seen := initial |}))
    = false /\
  open (seen (last (log_of (run echo_t [Click OkControl]) scenario_A)
                {| event := {| ev_name := ""; detail := true |}; seen := initial |}))
    = false.
Proof.
  split; [discriminate |].
  apply (last_notification_is_false echo_t [Click OkControl] scenario_A); discriminate.
Defined.

(** Closing keeps no memory: when a click has closed an open dialog and the
    host writes [open = true] again, the instance is exactly what it was
    before the click, message and type included. *)
Theorem close_then_reopen_restores (t : string -> string) (this : ModalComponent) (r : region) :
  qualifying t this r = true ->
  state_after (run t [Click r; HostSetOpen true]) this = this.
Proof.
  intros Hq. pose proof (qualifying_open t this r Hq) as Ho.
  rewrite run_cons_state, run_cons_state. simpl step.
  rewrite (click_qualifying_state t r this Hq).
  destruct this as [o m ty]. simpl in Ho. subst o. reflexivity.
Qed.

Lemma close_then_reopen_restores_witness :
  qualifying echo_t scenario_B Overlay = true /\
  state_after (run echo_t [Click Overlay; HostSetOpen true]) scenario_B = scenario_B.
Proof.
  split; [reflexivity |].
  apply (close_then_reopen_restores echo_t scenario_B Overlay); reflexivity.
Defined.

(** The type is read when the click is handled, not when the dialog was
    opened: if the host writes the type while the dialog is open, the next
    click on the ok-control follows the new type, dispatching [true] and
    [false] for "confirm" and a single [false] for anything else, and the
    cancel-control exists only for "confirm". *)
Theorem type_read_at_click_time (t : string -> string) (this : ModalComponent) (ty : string) :
  open this = true ->
  notifications (log_of (run t [HostSetType ty; Click OkControl]) this)
    = (if String.eqb ty "confirm" then [true; false] else [false]) /\
  notifications (log_of (run t [HostSetType ty; Click CancelControl]) this)
    = (if String.eqb ty "confirm" then [false; false] else []).
Proof.
  intros Ho. rewrite !run_cons_log. simpl step.
  unfold log_of, state_after. simpl set_type. simpl fst. simpl snd.
  rewrite !click_unfold, !target_spec. simpl open. simpl type. rewrite Ho.
  destruct (String.eqb ty "confirm"); split; reflexivity.
Qed.

Lemma type_read_at_click_time_witness :
  open scenario_B = true /\
  notifications (log_of (run echo_t [HostSetType "confirm"; Click OkControl]) scenario_B)
    = (if String.eqb "confirm" "confirm" then [true; false] else [false]) /\
  notifications (log_of (run echo_t [HostSetType "confirm"; Click CancelControl]) scenario_B)
    = (if String.eqb "confirm" "confirm" then [false; false] else []).
Proof.
  split; [reflexivity |].
  apply (type_read_at_click_time echo_t scenario_B "confirm"); reflexivity.
Defined.

(** No sequence of clicks, on whatever regions, changes [message] or
    [type], and none opens a dialog: if the dialog is open after the clicks
    it was open before them and nothing was dispatched. *)
Theorem clicks_never_open_nor_edit (t : string -> string) (rs : list region) :
  forall this,
    message (state_after (run t (map Click rs)) this) = message this /\
    type (state_after (run t (map Click rs)) this) = type this /\
    (open (state_after (run t (map Click rs)) this) = true ->
     open this = true /\ log_of (run t (map Click rs)) this = []).
Proof.
  induction rs as [| r rest IH]; intros this.
  - repeat split. assumption.
  - simpl map. rewrite run_cons_state, run_cons_log. simpl step.
    destruct (IH (state_after (click t r) this)) as [Hm [Ht Hopen]].
    destruct (click_state_fields t r this) as [Hm1 Ht1].
    split; [congruence |]. split; [congruence |].
    intros Hfin. destruct (Hopen Hfin) as [Ho1 Hl]. rewrite Hl, app_nil_r.
    destruct (qualifying t this r) eqn:Hq.
    + rewrite (click_qualifying_state t r this Hq) in Ho1. discriminate Ho1.
    + unfold qualifying in Hq. unfold state_after, log_of in *.
      rewrite click_unfold in *.
      destruct (target t this r); [discriminate Hq |].
      split; [exact Ho1 | reflexivity].
Qed.
